(** * Black-Scholes option pricer (streamlit_app.py): a shallow embedding

    The pricing formulas are modelled over the real numbers (idealised
    arithmetic), with [scipy.stats.norm.cdf] and [norm.pdf] the standard normal
    distribution function and density, the former through the power series of
    [fun x => integral from 0 to x of exp (-t^2/2) dt].  How [run] fails
    depends on floating-point effects that real arithmetic does not have
    (overflow, underflow, [inf] and [nan]); module [F] models [run] a second
    time on IEEE-754 doubles for that. *)

From Stdlib Require Import Reals Lra Lia List Arith Factorial ZArith.
From Stdlib Require Floats Uint63.
Import ListNotations.

Open Scope R_scope.

(** ** The standard normal distribution (scipy.stats.norm) *)

Module Norm.

(** n-th term of the Taylor series of [x |-> int_0^x exp(-t^2/2) dt]:
    [x * (-x^2/2)^n / (n! * (2n+1))]. *)
Definition gauss_term (x : R) (n : nat) : R :=
  x * (- (x * x / 2)) ^ n / (INR (fact n) * INR (2 * n + 1)).

(** Dominating series [|x| * (x^2/2)^n / n!], summing to [|x| * exp (x^2/2)]. *)
Definition gauss_bound (x : R) (n : nat) : R :=
  / INR (fact n) * (x * x / 2) ^ n * Rabs x.

Lemma gauss_bound_cv (x : R) :
  { l : R | Un_cv (fun N => sum_f_R0 (gauss_bound x) N) l }.
Proof.
  destruct (exist_exp (x * x / 2)) as [e He].
  exists (Rabs x * e).
  unfold exp_in, infinite_sum in He.
  intros eps Heps.
  destruct (Req_dec (Rabs x) 0) as [H0 | H0].
  - exists 0%nat. intros n _. unfold gauss_bound.
    rewrite <- scal_sum, H0. unfold Rdist. rewrite !Rmult_0_l.
    rewrite Rminus_0_r, Rabs_R0. exact Heps.
  - assert (Hx : 0 < Rabs x) by (pose proof (Rabs_pos x); lra).
    destruct (He (eps / Rabs x)) as [N HN].
    { apply Rdiv_lt_0_compat; assumption. }
    exists N. intros n Hn. unfold gauss_bound.
    rewrite <- scal_sum. unfold Rdist.
    replace (Rabs x * sum_f_R0 (fun i => / INR (fact i) * (x * x / 2) ^ i) n
             - Rabs x * e)
      with (Rabs x * (sum_f_R0 (fun i => / INR (fact i) * (x * x / 2) ^ i) n - e))
      by ring.
    rewrite Rabs_mult, Rabs_Rabsolu.
    specialize (HN n Hn). unfold Rdist in HN.
    apply (Rmult_lt_compat_l (Rabs x)) in HN; [| exact Hx].
    replace (Rabs x * (eps / Rabs x)) with eps in HN by (field; lra).
    exact HN.
Qed.

Lemma gauss_term_abs_le (x : R) (n : nat) :
  0 <= Rabs (gauss_term x n) <= gauss_bound x n.
Proof.
  split; [apply Rabs_pos |].
  unfold gauss_term, gauss_bound.
  assert (Hf : 0 < INR (fact n)) by (apply lt_0_INR, lt_O_fact).
  assert (Ho : 1 <= INR (2 * n + 1)).
  { replace 1 with (INR 1) by reflexivity. apply le_INR. lia. }
  assert (Hq : 0 <= x * x / 2) by nra.
  unfold Rdiv. rewrite !Rabs_mult, Rabs_inv, <- RPow_abs, Rabs_Ropp.
  rewrite (Rabs_right (x * x * / 2)) by (apply Rle_ge; exact Hq).
  rewrite Rabs_mult, (Rabs_right (INR (fact n))) by lra.
  rewrite (Rabs_right (INR (2 * n + 1))) by lra.
  assert (Hp : 0 <= (x * x * / 2) ^ n) by (apply pow_le; exact Hq).
  rewrite Rinv_mult.
  assert (Hi : / INR (2 * n + 1) <= 1).
  { rewrite <- Rinv_1. apply Rinv_le_contravar; lra. }
  assert (Hif : 0 < / INR (fact n)) by (apply Rinv_0_lt_compat; exact Hf).
  pose proof (Rabs_pos x).
  assert (0 <= Rabs x * (x * x * / 2) ^ n * / INR (fact n)) by
    (apply Rmult_le_pos; [apply Rmult_le_pos |]; lra).
  assert (0 < / INR (2 * n + 1)) by (apply Rinv_0_lt_compat; lra).
  nra.
Qed.

(** The series converges (absolutely) for every [x]. *)
Lemma gauss_series_cv (x : R) :
  { l : R | Un_cv (fun N => sum_f_R0 (gauss_term x) N) l }.
Proof.
  apply cv_cauchy_2, cauchy_abs, cv_cauchy_1.
  apply (Rseries_CV_comp _ (gauss_bound x)).
  - intro n. apply gauss_term_abs_le.
  - apply gauss_bound_cv.
Defined.

(** [gauss_integral x] is [int_0^x exp (-t^2/2) dt]. *)
Definition gauss_integral (x : R) : R := proj1_sig (gauss_series_cv x).

(** [norm.cdf]: the standard normal distribution function. *)
Definition cdf (x : R) : R := / 2 + gauss_integral x / sqrt (2 * PI).

(** [norm.pdf]: the standard normal density. *)
Definition pdf (x : R) : R := exp (- (x * x) / 2) / sqrt (2 * PI).

Lemma gauss_integral_spec (x : R) :
  Un_cv (fun N => sum_f_R0 (gauss_term x) N) (gauss_integral x).
Proof. exact (proj2_sig (gauss_series_cv x)). Qed.

Lemma gauss_term_opp (x : R) (n : nat) : gauss_term (- x) n = - gauss_term x n.
Proof.
  unfold gauss_term. replace (- x * - x) with (x * x) by ring. unfold Rdiv. ring.
Qed.

Lemma gauss_partial_opp (x : R) (N : nat) :
  sum_f_R0 (gauss_term (- x)) N = - sum_f_R0 (gauss_term x) N.
Proof.
  induction N as [| N IH]; simpl.
  - apply gauss_term_opp.
  - rewrite IH, gauss_term_opp. ring.
Qed.

(** The integral from 0 is an odd function of its bound. *)
Lemma gauss_integral_opp (x : R) : gauss_integral (- x) = - gauss_integral x.
Proof.
  apply (UL_sequence (fun N => sum_f_R0 (gauss_term (- x)) N)).
  - apply gauss_integral_spec.
  - pose proof (CV_opp _ _ (gauss_integral_spec x)) as H.
    intros eps Heps. destruct (H eps Heps) as [N HN]. exists N.
    intros n Hn. rewrite gauss_partial_opp. apply HN, Hn.
Qed.

Lemma gauss_integral_0 : gauss_integral 0 = 0.
Proof.
  pose proof (gauss_integral_opp 0) as H. rewrite Ropp_0 in H. lra.
Qed.

Lemma sqrt_2PI_pos : 0 < sqrt (2 * PI).
Proof. apply sqrt_lt_R0. pose proof PI_RGT_0. lra. Qed.

(** [norm.cdf(-x) = 1 - norm.cdf(x)]. *)
Lemma cdf_opp (x : R) : cdf (- x) = 1 - cdf x.
Proof.
  unfold cdf. rewrite gauss_integral_opp. pose proof sqrt_2PI_pos.
  field. lra.
Qed.

Lemma cdf_0 : cdf 0 = / 2.
Proof. unfold cdf. rewrite gauss_integral_0. unfold Rdiv. ring. Qed.

Lemma pdf_pos (x : R) : 0 < pdf x.
Proof.
  unfold pdf. apply Rdiv_lt_0_compat; [apply exp_pos | apply sqrt_2PI_pos].
Qed.

End Norm.

(** ** Python-level effects *)

(** The exceptions of the program that the models use: Python's
    ZeroDivisionError from [x / y] on plain Python floats when [y] is 0,
    OverflowError from [x ** 2] on a plain Python float whose square overflows
    (only the IEEE-754 model [F] has overflow), and AttributeError for an
    attribute that was never assigned.  Operations on numpy floats and the
    scipy functions return [inf] or [nan] instead of raising. *)
Inductive PyExc : Type :=
| ZeroDivisionError
| OverflowError
| AttributeError.

Inductive Result (A : Type) : Type :=
| Ok (a : A)
| Err (e : PyExc).
Arguments Ok {A} a.
Arguments Err {A} e.

Definition bind {A B : Type} (m : Result A) (k : A -> Result B) : Result B :=
  match m with
  | Ok a => k a
  | Err e => Err e
  end.
Notation "x <- m ;; k" := (bind m (fun x => k)) (at level 61, m at next level, right associativity).

Definition is_ok {A : Type} (m : Result A) : bool :=
  match m with Ok _ => true | Err _ => false end.

(** [obj.attr]: an attribute that was never assigned raises. *)
Definition getattr (a : option R) : Result R :=
  match a with Some v => Ok v | None => Err AttributeError end.

(** [for x in l: ys.append(f(x))], stopping at the first exception. *)
Fixpoint mapM {A B : Type} (f : A -> Result B) (l : list A) : Result (list B) :=
  match l with
  | [] => Ok []
  | x :: l' => y <- f x;; ys <- mapM f l';; Ok (y :: ys)
  end.

(** ** class BlackScholes *)

(** The object: the five attributes set by [__init__] and the six result
    attributes that [run] assigns ([None] while unassigned). *)
Record BlackScholes : Type := mkObj {
  time_to_maturity : R;
  strike : R;
  current_price : R;
  volatility : R;
  interest_rate : R;
  call_price : option R;
  put_price : option R;
  call_delta : option R;
  put_delta : option R;
  call_gamma : option R;
  put_gamma : option R;
}.

(** [BlackScholes(time_to_maturity, strike, current_price, volatility, interest_rate)] *)
Definition init (time_to_maturity strike current_price volatility interest_rate : R)
  : BlackScholes :=
  mkObj time_to_maturity strike current_price volatility interest_rate
        None None None None None None.

(** [BlackScholes.run] over the reals: the new state of [self], or the
    exception raised.  This is the headline call of line 159, whose inputs are
    plain Python floats, so [current_price / strike] raises ZeroDivisionError
    when [strike = 0].  Real arithmetic never overflows, so this model leaves
    out the OverflowError of [volatility ** 2] for [|volatility|] above about
    1.34e154, and all [inf]/[nan] values; module [F] has them.  Outside the
    positive domain ([current_price / strike <= 0], [time_to_maturity <= 0] or
    [volatility = 0]) Rocq's [ln], [sqrt] and division by 0 return 0 where
    numpy returns [nan] or [inf], so the values assigned there are not the
    program's: the theorems below about these values assume [valid].  The
    grid (line 210) calls [run] with numpy-float [spot] and [vol]; there
    [strike] is the one of line 159, already known to be non-zero. *)
Definition run (self : BlackScholes) : Result BlackScholes :=
  let time_to_maturity := time_to_maturity self in
  let strike := strike self in
  let current_price := current_price self in
  let volatility := volatility self in
  let interest_rate := interest_rate self in
  if Req_EM_T strike 0 then Err ZeroDivisionError else
  let d1 :=
    (ln (current_price / strike) +
     (interest_rate + 0.5 * volatility ^ 2) * time_to_maturity) /
    (volatility * sqrt time_to_maturity) in
  let d2 := d1 - volatility * sqrt time_to_maturity in
  let call_price := current_price * Norm.cdf d1 -
    (strike * exp (- (interest_rate * time_to_maturity)) * Norm.cdf d2) in
  let put_price :=
    (strike * exp (- (interest_rate * time_to_maturity)) * Norm.cdf (- d2)) -
    current_price * Norm.cdf (- d1) in
  let call_delta := Norm.cdf d1 in
  let put_delta := 1 - Norm.cdf d1 in
  let call_gamma := Norm.pdf d1 / (strike * volatility * sqrt time_to_maturity) in
  let put_gamma := call_gamma in
  Ok {| time_to_maturity := time_to_maturity; strike := strike;
        current_price := current_price; volatility := volatility;
        interest_rate := interest_rate;
        call_price := Some call_price; put_price := Some put_price;
        call_delta := Some call_delta; put_delta := Some put_delta;
        call_gamma := Some call_gamma; put_gamma := Some put_gamma |}.

(** The structural preconditions the spec places on a parameter set. *)
Definition valid (o : BlackScholes) : Prop :=
  0 < current_price o /\ 0 < strike o /\ 0 < time_to_maturity o /\ 0 < volatility o.

(** The intermediate terms as the spec writes them. *)
Definition spec_d1 (o : BlackScholes) : R :=
  (ln (current_price o / strike o) +
   (interest_rate o + 0.5 * volatility o ^ 2) * time_to_maturity o) /
  (volatility o * sqrt (time_to_maturity o)).

Definition spec_d2 (o : BlackScholes) : R :=
  spec_d1 o - volatility o * sqrt (time_to_maturity o).

(** When [strike] is non-zero, [run] assigns exactly these values. *)
Lemma run_ok (o : BlackScholes) :
  strike o <> 0 ->
  run o = Ok {| time_to_maturity := time_to_maturity o; strike := strike o;
                current_price := current_price o; volatility := volatility o;
                interest_rate := interest_rate o;
                call_price := Some (current_price o * Norm.cdf (spec_d1 o) -
                   strike o * exp (- (interest_rate o * time_to_maturity o)) * Norm.cdf (spec_d2 o));
                put_price := Some (strike o * exp (- (interest_rate o * time_to_maturity o)) *
                   Norm.cdf (- spec_d2 o) - current_price o * Norm.cdf (- spec_d1 o));
                call_delta := Some (Norm.cdf (spec_d1 o));
                put_delta := Some (1 - Norm.cdf (spec_d1 o));
                call_gamma := Some (Norm.pdf (spec_d1 o) /
                   (strike o * volatility o * sqrt (time_to_maturity o)));
                put_gamma := Some (Norm.pdf (spec_d1 o) /
                   (strike o * volatility o * sqrt (time_to_maturity o))) |}.
Proof.
  intro HK. unfold run. destruct (Req_EM_T (strike o) 0) as [E | _]; [contradiction |].
  reflexivity.
Qed.

(** The call and put prices [run] assigns, as functions of the inputs. *)
Definition bs_call (o : BlackScholes) : R :=
  current_price o * Norm.cdf (spec_d1 o) -
  strike o * exp (- (interest_rate o * time_to_maturity o)) * Norm.cdf (spec_d2 o).

Definition bs_put (o : BlackScholes) : R :=
  strike o * exp (- (interest_rate o * time_to_maturity o)) * Norm.cdf (- spec_d2 o) -
  current_price o * Norm.cdf (- spec_d1 o).

(** ** The price surfaces (module-level code under [if calculate_btn:]) *)

(** [numpy.linspace(start, stop, num)] with its default [endpoint=True]:
    [y = arange(num) * step + start] (or [arange(num) / div * delta + start]
    when [step == 0]), then [y[-1] = stop]. *)
Definition linspace (start stop : R) (num : nat) : list R :=
  let div := INR (num - 1) in
  let delta := stop - start in
  let step := delta / div in
  let y := map (fun i => (if Req_EM_T step 0 then INR i / div * delta
                          else INR i * step) + start) (seq 0 num) in
  if Nat.ltb 1 num then firstn (num - 1) y ++ [stop] else y.

(** Python's built-in [max(a, b)] and [min(a, b)] (the first argument wins ties). *)
Definition py_max (a b : R) : R := if Rlt_dec a b then b else a.
Definition py_min (a b : R) : R := if Rlt_dec b a then b else a.

(** [spot_range = np.linspace(current_price * 0.5, current_price * 1.5, 50)] *)
Definition spot_range (current_price : R) : list R :=
  linspace (current_price * 0.5) (current_price * 1.5) 50.

(** [vol_range = np.linspace(max(0.01, volatility * 0.5), min(1.0, volatility * 1.5), 50)] *)
Definition vol_range (volatility : R) : list R :=
  linspace (py_max 0.01 (volatility * 0.5)) (py_min 1.0 (volatility * 1.5)) 50.

(** One cell of the double loop:
    [bs_temp = BlackScholes(time_to_maturity, strike, spot, vol, interest_rate)];
    [bs_temp.run()]; then its [call_price] and [put_price]. *)
Definition grid_cell (time_to_maturity strike interest_rate vol spot : R)
  : Result (R * R) :=
  bs_temp <- run (init time_to_maturity strike spot vol interest_rate);;
  c <- getattr (call_price bs_temp);;
  p <- getattr (put_price bs_temp);;
  Ok (c, p).

(** Pressing the button: the headline model, then the two axes and the
    [call_prices] / [put_prices] arrays indexed [(i, j)] = (volatility, spot).
    (In the source, [with col3:] on line 191 is dedented to column 0, so the
    module as written stops with an IndentationError at line 198; the model
    follows the nesting of lines 158-213 under [if calculate_btn:].) *)
Definition calculate (time_to_maturity strike current_price volatility interest_rate : R)
  : Result (BlackScholes * list R * list R * list (list R) * list (list R)) :=
  bs_model <- run (init time_to_maturity strike current_price volatility interest_rate);;
  let spot_range := spot_range current_price in
  let vol_range := vol_range volatility in
  rows <- mapM (fun vol => mapM (fun spot =>
            grid_cell time_to_maturity strike interest_rate vol spot) spot_range) vol_range;;
  Ok (bs_model, spot_range, vol_range, map (map fst) rows, map (map snd) rows).

(** ** The same computation on IEEE-754 doubles

    Python floats and numpy [float64] values are binary64 numbers; here they
    are Rocq's primitive floats, whose [+ - * /] and [sqrt] are the IEEE-754
    operations rounded to nearest (as Python's and numpy's are).  The two
    kinds of value differ in how they fail: Python raises (ZeroDivisionError
    for [x / 0.0], OverflowError when [x ** 2] overflows), numpy returns [inf]
    or [nan].  [np.log], [np.exp], [norm.cdf] and [norm.pdf] are total
    functions on doubles that never raise; the class [Numerics] takes them as
    parameters, so what is proved below about [run] holds whatever values
    they return.  The instance [libm] gives them concrete definitions, used
    only to evaluate closed examples: these follow the usual libm algorithms
    (range reduction and series, scipy's [ndtr] through [erf] and [erfc]) and
    agree with the real functions to roughly 1e-13 relative error, not to the
    last bit. *)

Module F.
Import Floats.
Local Open Scope float_scope.
Local Set Warnings "-inexact-float".

(** An integer as a double (exact for the exponents used below). *)
Definition of_Z (z : Z) : float :=
  if (z <? 0)%Z then - of_uint63 (Uint63.of_Z (- z)) else of_uint63 (Uint63.of_Z z).

Definition NPY_LOGE2 := 0.6931471805599453.
Definition NPY_SQRT1_2 := 0.7071067811865476.
Definition SQRT_PI := 1.7724538509055159.
(** scipy's [_norm_pdf_C = np.sqrt(2 * np.pi)] *)
Definition norm_pdf_C := 2.5066282746310002.

(** [1/k + s2/(k+2) + s2^2/(k+4) + ...], [n+1] terms. *)
Fixpoint atanh_poly (n : nat) (k s2 : float) : float :=
  match n with
  | O => 1 / k
  | S n' => 1 / k + s2 * atanh_poly n' (k + 2) s2
  end.

(** [np.log]: [x = m * 2^e] with [m] in [[sqrt(1/2), sqrt 2)], then
    [log x = e * log 2 + 2 atanh((m-1)/(m+1))]. *)
Definition log (x : float) : float :=
  if orb (is_nan x) (x <? 0) then nan
  else if x =? 0 then neg_infinity
  else if is_infinity x then infinity
  else
    let '(m, e) := FloatOps.Z.frexp x in
    let '(m, e) := if m <? NPY_SQRT1_2 then (2 * m, (e - 1)%Z) else (m, e) in
    let s := (m - 1) / (m + 1) in
    of_Z e * NPY_LOGE2 + 2 * s * atanh_poly 11 1 (s * s).

(** [1 + r/k (1 + r/(k+1) (1 + ...))], [n] levels. *)
Fixpoint taylor_exp (n : nat) (k r : float) : float :=
  match n with
  | O => 1
  | S n' => 1 + r / k * taylor_exp n' (k + 1) r
  end.

Fixpoint square_n (n : nat) (y : float) : float :=
  match n with O => y | S n' => square_n n' (y * y) end.

(** [np.exp]: [exp x = (exp (x / 2^e))^(2^e)] with [|x / 2^e| < 1]. *)
Definition exp (x : float) : float :=
  if is_nan x then nan
  else if 709.782712893384 <? x then infinity
  else if x <? -745.1332191019412 then 0
  else
    let '(m, e) := FloatOps.Z.frexp x in
    if (e <=? 0)%Z then taylor_exp 22 1 x
    else square_n (Z.to_nat e) (taylor_exp 22 1 m).

(** [erf x = 2/sqrt(pi) * sum_n (-1)^n x^(2n+1) / (n! (2n+1))]. *)
Fixpoint erf_sum (n : nat) (k t x2 : float) : float :=
  match n with
  | O => 0
  | S n' => t / (2 * k + 1) + erf_sum n' (k + 1) (- t * x2 / (k + 1)) x2
  end.

Definition erf (x : float) : float := 2 / SQRT_PI * erf_sum 40 0 x (x * x).

(** Continued fraction [z + (1/2)/(z + 1/(z + (3/2)/(z + ...)))]. *)
Fixpoint erfc_cf (n : nat) (k z : float) : float :=
  match n with
  | O => z
  | S n' => z + (k / 2) / erfc_cf n' (k + 1) z
  end.

Definition erfc (z : float) : float :=
  if z <? 2 then 1 - erf z
  else if 27 <? z then 0
  else exp (- (z * z)) / SQRT_PI / erfc_cf 60 1 z.

(** scipy's [ndtr], the body of [norm.cdf]. *)
Definition ndtr (a : float) : float :=
  if is_nan a then nan
  else
    let x := a * NPY_SQRT1_2 in
    let z := abs x in
    if z <? NPY_SQRT1_2 then 0.5 + 0.5 * erf x
    else let y := 0.5 * erfc z in if 0 <? x then 1 - y else y.

(** scipy's [_norm_pdf]: [np.exp(-x**2/2.0) / _norm_pdf_C]. *)
Definition pdf (x : float) : float := exp (- (x * x) / 2) / norm_pdf_C.

Class Numerics : Type := {
  np_log : float -> float;
  np_exp : float -> float;
  norm_cdf : float -> float;
  norm_pdf : float -> float;
}.

#[global] Instance libm : Numerics :=
  {| np_log := log; np_exp := exp; norm_cdf := ndtr; norm_pdf := pdf |}.

(** [x / y] on two Python floats. *)
Definition py_div (x y : float) : Result float :=
  if y =? 0 then Err ZeroDivisionError else Ok (x / y).

(** [x ** 2] on a Python float (CPython's [float_pow]): a non-finite [x] is
    returned squared; for a finite [x], libm's [pow(x, 2)] (the rounded square)
    raises OverflowError when it is infinite.  Underflow to 0 is not an error. *)
Definition py_pow2 (x : float) : Result float :=
  if negb (is_finite x) then Ok (x * x)
  else if is_infinity (x * x) then Err OverflowError
  else Ok (x * x).

Record BlackScholes : Type := mkObj {
  time_to_maturity : float;
  strike : float;
  current_price : float;
  volatility : float;
  interest_rate : float;
  call_price : option float;
  put_price : option float;
  call_delta : option float;
  put_delta : option float;
  call_gamma : option float;
  put_gamma : option float;
}.

Definition init (time_to_maturity strike current_price volatility interest_rate : float)
  : BlackScholes :=
  mkObj time_to_maturity strike current_price volatility interest_rate
        None None None None None None.

Section Run.
Context {N : Numerics}.

(** [np_inputs] says whether [current_price] and [volatility] are numpy
    floats (the grid's call on line 210, with [spot] and [vol] taken from
    [np.linspace]) or plain Python floats (the headline call on line 159);
    [strike], [time_to_maturity] and [interest_rate] are always Python floats.
    With a numpy [current_price], [current_price / strike] is numpy's division;
    with a numpy [volatility], so is [volatility ** 2].

    Lines 35-41 of [BlackScholes.run]: [d1] and [d2], or the exception raised.
    From [log(...)] on, every value is a numpy float. *)
Definition run_d (np_inputs : bool) (self : BlackScholes) : Result (float * float) :=
  let time_to_maturity := time_to_maturity self in
  let strike := strike self in
  let current_price := current_price self in
  let volatility := volatility self in
  let interest_rate := interest_rate self in
  q <- (if np_inputs then Ok (current_price / strike) else py_div current_price strike);;
  v2 <- (if np_inputs then Ok (volatility * volatility) else py_pow2 volatility);;
  let d1 :=
    (np_log q + (interest_rate + 0.5 * v2) * time_to_maturity) /
    (volatility * sqrt time_to_maturity) in
  let d2 := d1 - volatility * sqrt time_to_maturity in
  Ok (d1, d2).

(** [BlackScholes.run] (lines 26-62): lines 43-62 only combine numpy floats
    and call [np.exp], [norm.cdf] and [norm.pdf], so they never raise. *)
Definition run (np_inputs : bool) (self : BlackScholes) : Result BlackScholes :=
  let time_to_maturity := time_to_maturity self in
  let strike := strike self in
  let current_price := current_price self in
  let volatility := volatility self in
  let interest_rate := interest_rate self in
  d <- run_d np_inputs self;;
  let '(d1, d2) := d in
  let call_price := current_price * norm_cdf d1 -
    (strike * np_exp (- (interest_rate * time_to_maturity)) * norm_cdf d2) in
  let put_price :=
    (strike * np_exp (- (interest_rate * time_to_maturity)) * norm_cdf (- d2)) -
    current_price * norm_cdf (- d1) in
  let call_delta := norm_cdf d1 in
  let put_delta := 1 - norm_cdf d1 in
  let call_gamma := norm_pdf d1 / (strike * volatility * sqrt time_to_maturity) in
  let put_gamma := call_gamma in
  Ok {| time_to_maturity := time_to_maturity; strike := strike;
        current_price := current_price; volatility := volatility;
        interest_rate := interest_rate;
        call_price := Some call_price; put_price := Some put_price;
        call_delta := Some call_delta; put_delta := Some put_delta;
        call_gamma := Some call_gamma; put_gamma := Some put_gamma |}.

End Run.

(** Spot = strike = 100, maturity 1e-300, volatility 1e-200, rate 0.05: all
    positive, but [volatility * sqrt(time_to_maturity) = 1e-200 * 1e-150]
    underflows to 0. *)
Definition tiny_input : BlackScholes := init 1e-300 100 100 1e-200 0.05.

End F.

(** ** Lemmas about the embedding *)

(** Decimal literals such as [0.5] are [Q2R] terms; turn them into fractions
    so that [ring] and [field] see them. *)
Ltac unfold_decimals :=
  unfold Q2R in *; cbn [QArith_base.Qnum QArith_base.Qden] in *.

Lemma linspace_length (a b : R) (n : nat) : length (linspace a b n) = n.
Proof.
  unfold linspace. destruct (Nat.ltb_spec 1 n) as [H | H].
  - rewrite length_app, length_firstn, length_map, length_seq. simpl. lia.
  - rewrite length_map, length_seq. reflexivity.
Qed.

Lemma linspace_nth (a b : R) (n i : nat) :
  (2 <= n)%nat -> (i < n)%nat ->
  nth i (linspace a b n) 0 = a + INR i * ((b - a) / INR (n - 1)).
Proof.
  intros Hn Hi. unfold linspace.
  assert (Hdiv : INR (n - 1) <> 0) by (apply not_0_INR; lia).
  destruct (Nat.ltb_spec 1 n) as [_ | H]; [| lia].
  destruct (Nat.eq_dec i (n - 1)) as [-> | Hne].
  - rewrite app_nth2; rewrite length_firstn, length_map, length_seq;
      [| lia].
    replace (Nat.min (n - 1) n) with (n - 1)%nat by lia.
    rewrite Nat.sub_diag. simpl. field. exact Hdiv.
  - rewrite app_nth1 by (rewrite length_firstn, length_map, length_seq; lia).
    rewrite nth_firstn. destruct (Nat.ltb_spec i (n - 1)) as [_ | H']; [| lia].
    rewrite (nth_indep _ _ (((if Req_EM_T ((b - a) / INR (n - 1)) 0
                              then INR 0%nat / INR (n - 1) * (b - a)
                              else INR 0%nat * ((b - a) / INR (n - 1))) + a)))
      by (rewrite length_map, length_seq; lia).
    rewrite (map_nth (fun i0 => (if Req_EM_T ((b - a) / INR (n - 1)) 0
                                 then INR i0 / INR (n - 1) * (b - a)
                                 else INR i0 * ((b - a) / INR (n - 1))) + a)).
    rewrite seq_nth by lia. rewrite Nat.add_0_l.
    destruct (Req_EM_T ((b - a) / INR (n - 1)) 0) as [E | E].
    + assert (Hd : b - a = 0).
      { unfold Rdiv in E. apply Rmult_integral in E as [E | E]; [exact E |].
        exfalso. revert E. apply Rinv_neq_0_compat, Hdiv. }
      rewrite Hd. field. exact Hdiv.
    + ring.
Qed.

Lemma linspace_step (a b : R) (n i : nat) :
  (2 <= n)%nat -> (S i < n)%nat ->
  nth (S i) (linspace a b n) 0 - nth i (linspace a b n) 0 = (b - a) / INR (n - 1).
Proof.
  intros Hn Hi. rewrite !linspace_nth by lia. rewrite S_INR. ring.
Qed.

Lemma mapM_map {A B : Type} (f : A -> Result B) (g : A -> B) (l : list A) :
  (forall x, In x l -> f x = Ok (g x)) -> mapM f l = Ok (map g l).
Proof.
  induction l as [| x l IH]; intro H; simpl; [reflexivity |].
  rewrite (H x (or_introl eq_refl)). simpl.
  rewrite IH by (intros y Hy; apply H; right; exact Hy). reflexivity.
Qed.

Lemma grid_cell_ok (time_to_maturity strike interest_rate vol spot : R) :
  strike <> 0 ->
  grid_cell time_to_maturity strike interest_rate vol spot =
  Ok (bs_call (init time_to_maturity strike spot vol interest_rate),
      bs_put (init time_to_maturity strike spot vol interest_rate)).
Proof.
  intro HK. unfold grid_cell. rewrite run_ok by exact HK. reflexivity.
Qed.

(** The surfaces [calculate] produces, cell by cell. *)
Definition call_surface (time_to_maturity strike current_price volatility interest_rate : R)
  : list (list R) :=
  map (fun vol => map (fun spot =>
         bs_call (init time_to_maturity strike spot vol interest_rate))
       (spot_range current_price)) (vol_range volatility).

Definition put_surface (time_to_maturity strike current_price volatility interest_rate : R)
  : list (list R) :=
  map (fun vol => map (fun spot =>
         bs_put (init time_to_maturity strike spot vol interest_rate))
       (spot_range current_price)) (vol_range volatility).

Lemma calculate_ok (T K S sigma r : R) :
  K <> 0 ->
  exists bs_model,
    run (init T K S sigma r) = Ok bs_model /\
    calculate T K S sigma r =
    Ok (bs_model, spot_range S, vol_range sigma,
        call_surface T K S sigma r, put_surface T K S sigma r).
Proof.
  intro HK. destruct (run (init T K S sigma r)) as [o | e] eqn:Hrun.
  - exists o. split; [reflexivity |]. unfold calculate. rewrite Hrun. cbn [bind].
    rewrite (mapM_map _ (fun vol => map (fun spot =>
               (bs_call (init T K spot vol r), bs_put (init T K spot vol r)))
               (spot_range S))).
    + cbn [bind]. unfold call_surface, put_surface. rewrite !map_map.
      f_equal.
    + intros vol _. apply mapM_map. intros spot _. apply grid_cell_ok, HK.
  - rewrite run_ok in Hrun by exact HK. discriminate.
Qed.

Lemma nth_surface (f : R -> R -> R) (xs ys : list R) (i j : nat) :
  (i < length ys)%nat -> (j < length xs)%nat ->
  nth j (nth i (map (fun y => map (fun x => f y x) xs) ys) []) 0 =
  f (nth i ys 0) (nth j xs 0).
Proof.
  intros Hi Hj.
  rewrite (nth_indep _ [] (map (fun x => f 0 x) xs)) by (rewrite length_map; exact Hi).
  rewrite (map_nth (fun y => map (fun x => f y x) xs)).
  rewrite (nth_indep _ 0 (f (nth i ys 0) 0)) by (rewrite length_map; exact Hj).
  rewrite (map_nth (fun x => f (nth i ys 0) x)). reflexivity.
Qed.

(** The reference scenario of the spec. *)
Definition reference : BlackScholes := init 1 100 100 0.2 0.05.

Lemma reference_valid : valid reference.
Proof. unfold valid, reference, init; simpl; lra. Qed.

(** An input whose [d1] is exactly 0: [current_price = exp(-0.07)], [strike = 1],
    [time_to_maturity = 1], [volatility = 0.2], [interest_rate = 0.05]. *)
Definition d1_zero_input : BlackScholes := init 1 1 (exp (- 0.07)) 0.2 0.05.

Lemma d1_zero_input_d1 : spec_d1 d1_zero_input = 0.
Proof.
  unfold spec_d1, d1_zero_input, init; simpl.
  rewrite Rdiv_1_r, ln_exp, sqrt_1. unfold_decimals. field.
Qed.

(** An input with [current_price <> strike]. *)
Definition gamma_input : BlackScholes := init 1 100 110 0.2 0.05.

Ltac strike_nonzero := unfold strike, reference, d1_zero_input, gamma_input, init;
  let H := fresh in intro H; unfold_decimals; lra.

(** ** Claims *)

(** C1 (put delta).  The spec says [putDelta = callDelta - 1] (that is
    [-cdf(-d1)], in [[-1, 0]]).  [run] assigns [put_delta = 1 - norm.cdf(d1)]:
    at an input where [d1 = 0], both deltas are [1/2], while
    [callDelta - 1 = -1/2]. *)
Theorem put_delta_at_d1_zero :
  exists o, run d1_zero_input = Ok o /\
    call_delta o = Some (/ 2) /\ put_delta o = Some (/ 2) /\
    / 2 <> / 2 - 1.
Proof.
  eexists. split; [apply run_ok; strike_nonzero |].
  cbn [call_delta put_delta]. rewrite d1_zero_input_d1, Norm.cdf_0.
  split; [reflexivity |]. split; [f_equal; field |]. lra.
Qed.

(** C2 (gamma).  The spec says [gamma = pdf(d1) / (spot * volatility * sqrt(T))].
    [run] divides by [strike * volatility * sqrt(T)]: with [current_price = 110]
    and [strike = 100] the two differ. *)
Theorem gamma_uses_strike :
  exists o g, run gamma_input = Ok o /\ call_gamma o = Some g /\
    g = Norm.pdf (spec_d1 gamma_input) / (strike gamma_input * 0.2 * 1) /\
    g <> Norm.pdf (spec_d1 gamma_input) /
         (current_price gamma_input * volatility gamma_input *
          sqrt (time_to_maturity gamma_input)).
Proof.
  eexists. eexists. split; [apply run_ok; strike_nonzero |].
  cbn [call_gamma]. split; [reflexivity |].
  pose proof (Norm.pdf_pos (spec_d1 gamma_input)) as Hp.
  revert Hp. generalize (Norm.pdf (spec_d1 gamma_input)). intros p Hp.
  unfold gamma_input, init. cbn [strike current_price volatility time_to_maturity].
  rewrite sqrt_1. split; [reflexivity |].
  unfold_decimals. intro H. field_simplify in H. lra.
Qed.

(** C3 and C6 are about how [run] fails, which depends on floating-point
    arithmetic: they are settled on the IEEE-754 model [F]. *)

Module IEEE.
Import Floats.
Local Open Scope float_scope.
Local Set Warnings "-inexact-float".

Lemma eqb_zero (y : float) : (y =? 0) = true -> exists s, Prim2SF y = S754_zero s.
Proof.
  rewrite eqb_spec. replace (Prim2SF 0) with (S754_zero false) by (vm_compute; reflexivity).
  destruct (Prim2SF y) as [s | s | | s m e]; try (destruct s); cbn; try discriminate; eauto.
Qed.

(** Dividing anything by a zero gives [inf] or [nan]. *)
Lemma div_zero_not_finite (x y : float) : (y =? 0) = true -> is_finite (x / y) = false.
Proof.
  intro Hy. destruct (eqb_zero y Hy) as [s Hs].
  unfold is_finite, is_nan, is_infinity. rewrite !eqb_spec, abs_spec, div_spec, Hs.
  replace (Prim2SF infinity) with (S754_infinity false) by (vm_compute; reflexivity).
  destruct (Prim2SF x) as [sx | sx | | sx mx ex]; destruct s; try destruct sx; reflexivity.
Qed.

Lemma py_div_ok (x y : float) : (y =? 0) = false -> F.py_div x y = Ok (x / y).
Proof. intro H. unfold F.py_div. rewrite H. reflexivity. Qed.

Lemma py_pow2_cases (x : float) :
  F.py_pow2 x = Err OverflowError /\ andb (is_finite x) (is_infinity (x * x)) = true \/
  F.py_pow2 x = Ok (x * x) /\ andb (is_finite x) (is_infinity (x * x)) = false.
Proof.
  unfold F.py_pow2. destruct (is_finite x), (is_infinity (x * x)); cbn; auto.
Qed.

(** C3 (validation), counterexample: [run] does not validate; the headline
    call with [time_to_maturity = -1] completes without raising. *)
Lemma run_accepts_negative_maturity :
  is_ok (F.run false (F.init (-1) 100 100 0.2 0.05)) = true.
Proof. vm_compute. reflexivity. Qed.

(** C3 (validation), as the code does it: on plain Python floats (the
    headline call) [run] raises ZeroDivisionError exactly when [strike] is 0,
    OverflowError exactly when [strike] is not 0 and [volatility ** 2]
    overflows (a finite [volatility] whose square is infinite), and otherwise
    completes, whatever the signs of the inputs; this holds for every
    implementation of [np.log], [np.exp], [norm.cdf] and [norm.pdf]. *)
Theorem run_exceptions `{F.Numerics} (o : F.BlackScholes) :
  (F.run false o = Err ZeroDivisionError <-> (F.strike o =? 0) = true) /\
  (F.run false o = Err OverflowError <->
     (F.strike o =? 0) = false /\
     andb (is_finite (F.volatility o)) (is_infinity (F.volatility o * F.volatility o)) = true) /\
  (is_ok (F.run false o) = true <->
     (F.strike o =? 0) = false /\
     andb (is_finite (F.volatility o)) (is_infinity (F.volatility o * F.volatility o)) = false).
Proof.
  unfold F.run, F.run_d, F.py_div. cbv zeta.
  destruct (F.strike o =? 0) eqn:HK.
  - cbn. intuition (try congruence).
  - unfold F.py_pow2.
    destruct (is_finite (F.volatility o)), (is_infinity (F.volatility o * F.volatility o));
      cbn; intuition (try congruence).
Qed.

(** C6 (non-finite intermediates), counterexample: on [tiny_input], all of
    whose inputs are positive, [volatility * sqrt(time_to_maturity)]
    underflows to 0, [d1] is [+inf], and [run] completes with no error,
    assigning [nan] to [call_gamma] and [put_gamma]. *)
Lemma run_infinite_d1_no_error :
  match F.run_d false F.tiny_input with
  | Ok (d1, _) => is_infinity d1 = true
  | Err _ => False
  end /\
  match F.run false F.tiny_input with
  | Ok o => option_map is_nan (F.call_gamma o) = Some true /\
            option_map is_nan (F.put_gamma o) = Some true
  | Err _ => False
  end.
Proof. vm_compute. repeat split. Qed.

(** C6 (non-finite intermediates), as the code does it: [run] has no
    finiteness check and no DomainError.  When [strike] is not 0,
    [volatility ** 2] does not overflow, and both
    [volatility * sqrt(time_to_maturity)] and
    [strike * volatility * sqrt(time_to_maturity)] evaluate to 0 (by
    underflow, say), [run] completes, [d1] is not finite, and the gamma it
    assigns to [call_gamma] and [put_gamma] is not finite; this holds for
    every implementation of [np.log], [np.exp], [norm.cdf] and [norm.pdf]. *)
Theorem run_propagates_nonfinite `{F.Numerics} (o : F.BlackScholes) :
  (F.strike o =? 0) = false ->
  is_infinity (F.volatility o * F.volatility o) = false ->
  (F.volatility o * sqrt (F.time_to_maturity o) =? 0) = true ->
  (F.strike o * F.volatility o * sqrt (F.time_to_maturity o) =? 0) = true ->
  exists d1 d2 o' g,
    F.run_d false o = Ok (d1, d2) /\ is_finite d1 = false /\
    F.run false o = Ok o' /\
    F.call_gamma o' = Some g /\ F.put_gamma o' = Some g /\ is_finite g = false.
Proof.
  intros HK Hv Hd Hg.
  assert (Hp : F.py_pow2 (F.volatility o) = Ok (F.volatility o * F.volatility o)).
  { unfold F.py_pow2. rewrite Hv. destruct (negb (is_finite (F.volatility o))); reflexivity. }
  unfold F.run, F.run_d. rewrite py_div_ok by exact HK. cbn [bind]. rewrite Hp. cbn [bind].
  do 4 eexists. split; [reflexivity |]. split; [apply div_zero_not_finite, Hd |].
  split; [reflexivity |]. split; [reflexivity |]. split; [reflexivity |].
  apply div_zero_not_finite, Hg.
Qed.

Lemma run_propagates_nonfinite_witness :
  ((F.strike F.tiny_input =? 0) = false /\
   is_infinity (F.volatility F.tiny_input * F.volatility F.tiny_input) = false /\
   (F.volatility F.tiny_input * sqrt (F.time_to_maturity F.tiny_input) =? 0) = true /\
   (F.strike F.tiny_input * F.volatility F.tiny_input *
      sqrt (F.time_to_maturity F.tiny_input) =? 0) = true) /\
  exists d1 d2 o' g,
    F.run_d false F.tiny_input = Ok (d1, d2) /\ is_finite d1 = false /\
    F.run false F.tiny_input = Ok o' /\
    F.call_gamma o' = Some g /\ F.put_gamma o' = Some g /\ is_finite g = false.
Proof.
  assert (H1 : (F.strike F.tiny_input =? 0) = false) by (vm_compute; reflexivity).
  assert (H2 : is_infinity (F.volatility F.tiny_input * F.volatility F.tiny_input) = false)
    by (vm_compute; reflexivity).
  assert (H3 : (F.volatility F.tiny_input * sqrt (F.time_to_maturity F.tiny_input) =? 0) = true)
    by (vm_compute; reflexivity).
  assert (H4 : (F.strike F.tiny_input * F.volatility F.tiny_input *
                  sqrt (F.time_to_maturity F.tiny_input) =? 0) = true)
    by (vm_compute; reflexivity).
  split; [repeat split; assumption |].
  exact (run_propagates_nonfinite F.tiny_input H1 H2 H3 H4).
Defined.



End IEEE.

(** C4 (put-call parity): for every valid input, the assigned
    [call_price - put_price] is [current_price - strike * exp(-(interest_rate * T))]. *)
Theorem put_call_parity (o : BlackScholes) :
  valid o ->
  exists o' c p, run o = Ok o' /\ call_price o' = Some c /\ put_price o' = Some p /\
    c - p = current_price o - strike o * exp (- (interest_rate o * time_to_maturity o)).
Proof.
  intros (HS & HK & HT & Hv).
  do 3 eexists. split; [apply run_ok; lra |].
  cbn [call_price put_price]. split; [reflexivity |]. split; [reflexivity |].
  rewrite !Norm.cdf_opp. ring.
Qed.

Lemma put_call_parity_witness :
  valid reference /\
  exists o' c p, run reference = Ok o' /\ call_price o' = Some c /\ put_price o' = Some p /\
    c - p = current_price reference -
            strike reference * exp (- (interest_rate reference * time_to_maturity reference)).
Proof.
  assert (H : valid reference) by (unfold valid, reference, init; simpl; unfold_decimals; lra).
  split; [exact H | apply put_call_parity, H].
Defined.

(** C5 (pricing formulas): for every valid input, [run] assigns the call and
    put prices of the Black-Scholes formulas, with [d1] and [d2] as in the spec. *)
Theorem run_prices (o : BlackScholes) :
  valid o ->
  let S := current_price o in let K := strike o in let T := time_to_maturity o in
  let sigma := volatility o in let r := interest_rate o in
  let d1 := (ln (S / K) + (r + 0.5 * sigma ^ 2) * T) / (sigma * sqrt T) in
  let d2 := d1 - sigma * sqrt T in
  exists o', run o = Ok o' /\
    call_price o' = Some (S * Norm.cdf d1 - K * exp (- (r * T)) * Norm.cdf d2) /\
    put_price o' = Some (K * exp (- (r * T)) * Norm.cdf (- d2) - S * Norm.cdf (- d1)).
Proof.
  intros (HS & HK & HT & Hv) S K T sigma r d1 d2.
  eexists. split; [apply run_ok; lra |]. split; reflexivity.
Qed.

Lemma run_prices_witness :
  valid reference /\
  exists o', run reference = Ok o' /\
    call_price o' = Some (100 * Norm.cdf (spec_d1 reference) -
                          100 * exp (- (0.05 * 1)) * Norm.cdf (spec_d2 reference)) /\
    put_price o' = Some (100 * exp (- (0.05 * 1)) * Norm.cdf (- spec_d2 reference) -
                         100 * Norm.cdf (- spec_d1 reference)).
Proof.
  assert (H : valid reference) by (unfold valid, reference, init; simpl; unfold_decimals; lra).
  split; [exact H | exact (run_prices reference H)].
Defined.

(** C7 (gamma identity): for every valid input, [put_gamma] is the value
    assigned to [call_gamma]. *)
Theorem call_put_gamma_equal (o : BlackScholes) :
  valid o ->
  exists o' g, run o = Ok o' /\ call_gamma o' = Some g /\ put_gamma o' = Some g.
Proof.
  intros (HS & HK & HT & Hv).
  do 2 eexists. split; [apply run_ok; lra |]. split; reflexivity.
Qed.

Lemma call_put_gamma_equal_witness :
  valid reference /\
  exists o' g, run reference = Ok o' /\ call_gamma o' = Some g /\ put_gamma o' = Some g.
Proof.
  assert (H : valid reference) by (unfold valid, reference, init; simpl; unfold_decimals; lra).
  split; [exact H | exact (call_put_gamma_equal reference H)].
Defined.

(** [l] is [n] equally spaced points from [lo] to [hi]. *)
Definition equally_spaced (l : list R) (lo hi : R) (n : nat) : Prop :=
  length l = n /\ nth 0 l 0 = lo /\ nth (n - 1) l 0 = hi /\
  forall i, (S i < n)%nat -> nth (S i) l 0 - nth i l 0 = (hi - lo) / INR (n - 1).

Lemma linspace_equally_spaced (a b : R) (n : nat) :
  (2 <= n)%nat -> equally_spaced (linspace a b n) a b n.
Proof.
  intro Hn. assert (Hdiv : INR (n - 1) <> 0) by (apply not_0_INR; lia).
  split; [apply linspace_length |]. split; [| split].
  - rewrite linspace_nth by lia. simpl. ring.
  - rewrite linspace_nth by lia. field. exact Hdiv.
  - intros i Hi. apply linspace_step; lia.
Qed.

(** C8 (grid axes): both axes have 50 points (the fixed resolution), equally
    spaced from [current_price * 0.5] to [current_price * 1.5] and from
    [max(0.01, volatility * 0.5)] to [min(1.0, volatility * 1.5)]; they are
    strictly increasing when [current_price > 0] and [1/150 < volatility < 2],
    which covers the sidebar's volatility range [[0.01, 1.0]] (line 150). *)
Theorem grid_axes (current_price volatility : R) :
  0 < current_price -> 1 / 150 < volatility < 2 ->
  equally_spaced (spot_range current_price)
    (current_price * 0.5) (current_price * 1.5) 50 /\
  equally_spaced (vol_range volatility)
    (py_max 0.01 (volatility * 0.5)) (py_min 1.0 (volatility * 1.5)) 50 /\
  current_price * 0.5 < current_price * 1.5 /\
  py_max 0.01 (volatility * 0.5) < py_min 1.0 (volatility * 1.5).
Proof.
  intros HS Hv.
  split; [apply linspace_equally_spaced; lia |].
  split; [apply linspace_equally_spaced; lia |].
  split; [unfold_decimals; lra |].
  unfold py_max, py_min.
  destruct (Rlt_dec 0.01 (volatility * 0.5)); destruct (Rlt_dec (volatility * 1.5) 1.0);
    unfold_decimals; lra.
Qed.

Lemma grid_axes_witness :
  (0 < 100 /\ 1 / 150 < 0.2 < 2) /\
  equally_spaced (spot_range 100) (100 * 0.5) (100 * 1.5) 50 /\
  equally_spaced (vol_range 0.2) (py_max 0.01 (0.2 * 0.5)) (py_min 1.0 (0.2 * 1.5)) 50 /\
  100 * 0.5 < 100 * 1.5 /\ py_max 0.01 (0.2 * 0.5) < py_min 1.0 (0.2 * 1.5).
Proof.
  assert (H : 0 < 100 /\ 1 / 150 < 0.2 < 2) by (unfold_decimals; lra).
  destruct H as [H1 H2].
  split; [split; assumption | exact (grid_axes 100 0.2 H1 H2)].
Defined.

(** C9 (grid cells): for every valid input and every [(i, j)], cell [(i, j)] of
    [call_prices] and [put_prices] holds the prices that [run] assigns to a fresh
    [BlackScholes(time_to_maturity, strike, spot_range[j], vol_range[i], interest_rate)]. *)
Theorem grid_cells (T K S sigma r : R) :
  valid (init T K S sigma r) ->
  exists bs_model calls puts,
    calculate T K S sigma r = Ok (bs_model, spot_range S, vol_range sigma, calls, puts) /\
    forall i j, (i < 50)%nat -> (j < 50)%nat ->
      exists o, run (init T K (nth j (spot_range S) 0) (nth i (vol_range sigma) 0) r) = Ok o /\
        call_price o = Some (nth j (nth i calls []) 0) /\
        put_price o = Some (nth j (nth i puts []) 0).
Proof.
  intros (HS & HK & HT & Hv). cbn [strike init] in HK.
  destruct (calculate_ok T K S sigma r) as [bs [_ Hc]]; [lra |].
  exists bs, (call_surface T K S sigma r), (put_surface T K S sigma r).
  split; [exact Hc |].
  intros i j Hi Hj.
  eexists. split; [apply run_ok; cbn [strike init]; lra |].
  unfold call_surface, put_surface.
  rewrite (nth_surface (fun vol spot => bs_call (init T K spot vol r)))
    by (unfold spot_range, vol_range; rewrite linspace_length; lia).
  rewrite (nth_surface (fun vol spot => bs_put (init T K spot vol r)))
    by (unfold spot_range, vol_range; rewrite linspace_length; lia).
  split; reflexivity.
Qed.

Lemma grid_cells_witness :
  valid reference /\
  exists bs_model calls puts,
    calculate 1 100 100 0.2 0.05 = Ok (bs_model, spot_range 100, vol_range 0.2, calls, puts) /\
    forall i j, (i < 50)%nat -> (j < 50)%nat ->
      exists o, run (init 1 100 (nth j (spot_range 100) 0) (nth i (vol_range 0.2) 0) 0.05) = Ok o /\
        call_price o = Some (nth j (nth i calls []) 0) /\
        put_price o = Some (nth j (nth i puts []) 0).
Proof.
  assert (H : valid reference) by (unfold valid, reference, init; simpl; unfold_decimals; lra).
  split; [exact H | exact (grid_cells 1 100 100 0.2 0.05 H)].
Defined.

(** C10 (frame): [run] leaves the five input attributes as they were. *)
Theorem run_keeps_inputs (o o' : BlackScholes) :
  run o = Ok o' ->
  time_to_maturity o' = time_to_maturity o /\ strike o' = strike o /\
  current_price o' = current_price o /\ volatility o' = volatility o /\
  interest_rate o' = interest_rate o.
Proof.
  unfold run. destruct (Req_EM_T (strike o) 0) as [_ | _]; [discriminate |].
  intro H. injection H as <-. repeat split.
Qed.

Lemma run_keeps_inputs_witness :
  exists o', run reference = Ok o' /\
    time_to_maturity o' = time_to_maturity reference /\ strike o' = strike reference /\
    current_price o' = current_price reference /\ volatility o' = volatility reference /\
    interest_rate o' = interest_rate reference.
Proof.
  assert (HK : strike reference <> 0) by strike_nonzero.
  eexists. split; [exact (run_ok reference HK) |].
  exact (run_keeps_inputs reference _ (run_ok reference HK)).
Defined.

(** ** Further properties of the page computation *)

Lemma bs_parity (o : BlackScholes) :
  bs_call o - bs_put o =
  current_price o - strike o * exp (- (interest_rate o * time_to_maturity o)).
Proof. unfold bs_call, bs_put. rewrite !Norm.cdf_opp. ring. Qed.

Lemma linspace_between (a b : R) (n i : nat) :
  (2 <= n)%nat -> (i < n)%nat -> a <= b ->
  a <= nth i (linspace a b n) 0 <= b.
Proof.
  intros Hn Hi Hab. rewrite linspace_nth by lia.
  assert (Hd : 0 < INR (n - 1)) by (apply lt_0_INR; lia).
  assert (Hi' : 0 <= INR i <= INR (n - 1)) by (split; [apply pos_INR | apply le_INR; lia]).
  assert (Ht : 0 <= (b - a) / INR (n - 1)) by (unfold Rdiv; apply Rmult_le_pos; [lra | apply Rlt_le, Rinv_0_lt_compat; lra]).
  split; [nra |].
  assert (INR i * ((b - a) / INR (n - 1)) <= INR (n - 1) * ((b - a) / INR (n - 1))) by nra.
  replace (INR (n - 1) * ((b - a) / INR (n - 1))) with (b - a) in * by (field; lra).
  lra.
Qed.

(** X1: running an object a second time changes nothing: [run] only reads the
    five input attributes, which it leaves as they were. *)
Theorem run_idempotent (o o' : BlackScholes) :
  run o = Ok o' -> run o' = Ok o'.
Proof.
  intro H.
  assert (HK : strike o <> 0).
  { intro HK. unfold run in H. destruct (Req_EM_T (strike o) 0); [discriminate | contradiction]. }
  rewrite run_ok in H by exact HK. injection H as <-.
  rewrite run_ok by exact HK. reflexivity.
Qed.

Lemma run_idempotent_witness :
  exists o', run reference = Ok o' /\ run o' = Ok o'.
Proof.
  assert (HK : strike reference <> 0) by strike_nonzero.
  eexists. split; [exact (run_ok reference HK) |].
  exact (run_idempotent reference _ (run_ok reference HK)).
Defined.

(** X3: when [strike <> 0], [call_prices] and [put_prices] are 50 rows of 50
    cells, matching [vol_range] and [spot_range]. *)
Theorem grid_shape (T K S sigma r : R) :
  K <> 0 ->
  exists bs_model calls puts,
    calculate T K S sigma r = Ok (bs_model, spot_range S, vol_range sigma, calls, puts) /\
    length calls = 50%nat /\ Forall (fun row => length row = 50%nat) calls /\
    length puts = 50%nat /\ Forall (fun row => length row = 50%nat) puts.
Proof.
  intro HK. destruct (calculate_ok T K S sigma r HK) as [bs [_ Hc]].
  exists bs, (call_surface T K S sigma r), (put_surface T K S sigma r).
  split; [exact Hc |].
  unfold call_surface, put_surface, vol_range, spot_range.
  rewrite !length_map, linspace_length.
  repeat split; apply Forall_forall; intros row Hrow; apply in_map_iff in Hrow;
    destruct Hrow as [v [<- _]]; rewrite length_map; apply linspace_length.
Qed.

Lemma grid_shape_witness :
  (100 <> 0) /\
  exists bs_model calls puts,
    calculate 1 100 100 0.2 0.05 = Ok (bs_model, spot_range 100, vol_range 0.2, calls, puts) /\
    length calls = 50%nat /\ Forall (fun row => length row = 50%nat) calls /\
    length puts = 50%nat /\ Forall (fun row => length row = 50%nat) puts.
Proof.
  assert (H : 100 <> 0) by (let H := fresh in intro H; lra).
  split; [exact H | exact (grid_shape 1 100 100 0.2 0.05 H)].
Defined.

(** X4: put-call parity holds cell by cell on the surfaces: for valid sidebar
    inputs, [call_prices[i, j] - put_prices[i, j] = spot_range[j] - strike * exp(-(r * T))]. *)
Theorem grid_parity (T K S sigma r : R) :
  valid (init T K S sigma r) ->
  exists bs_model calls puts,
    calculate T K S sigma r = Ok (bs_model, spot_range S, vol_range sigma, calls, puts) /\
    forall i j, (i < 50)%nat -> (j < 50)%nat ->
      nth j (nth i calls []) 0 - nth j (nth i puts []) 0 =
      nth j (spot_range S) 0 - K * exp (- (r * T)).
Proof.
  intros (HS & HK & HT & Hv). cbn [current_price strike time_to_maturity volatility init] in *.
  assert (HK0 : K <> 0) by lra.
  destruct (calculate_ok T K S sigma r HK0) as [bs [_ Hc]].
  exists bs, (call_surface T K S sigma r), (put_surface T K S sigma r).
  split; [exact Hc |]. intros i j Hi Hj.
  unfold call_surface, put_surface.
  rewrite (nth_surface (fun vol spot => bs_call (init T K spot vol r)))
    by (unfold spot_range, vol_range; rewrite linspace_length; lia).
  rewrite (nth_surface (fun vol spot => bs_put (init T K spot vol r)))
    by (unfold spot_range, vol_range; rewrite linspace_length; lia).
  rewrite bs_parity. reflexivity.
Qed.

Lemma grid_parity_witness :
  valid (init 1 100 100 0.2 0.05) /\
  exists bs_model calls puts,
    calculate 1 100 100 0.2 0.05 = Ok (bs_model, spot_range 100, vol_range 0.2, calls, puts) /\
    forall i j, (i < 50)%nat -> (j < 50)%nat ->
      nth j (nth i calls []) 0 - nth j (nth i puts []) 0 =
      nth j (spot_range 100) 0 - 100 * exp (- (0.05 * 1)).
Proof.
  assert (H : valid (init 1 100 100 0.2 0.05))
    by (unfold valid, init; simpl; unfold_decimals; lra).
  split; [exact H | exact (grid_parity 1 100 100 0.2 0.05 H)].
Defined.

(** X5: when the sidebar inputs are valid and [1/150 < volatility < 2], every
    grid cell evaluates a valid parameter set: its spot lies in
    [[current_price * 0.5, current_price * 1.5]] and its volatility in [[0.01, 1.0]]. *)
Theorem grid_cells_in_range (T K S sigma r : R) :
  valid (init T K S sigma r) -> 1 / 150 < sigma < 2 ->
  forall i j, (i < 50)%nat -> (j < 50)%nat ->
    let spot := nth j (spot_range S) 0 in
    let vol := nth i (vol_range sigma) 0 in
    S * 0.5 <= spot <= S * 1.5 /\ 0.01 <= vol <= 1.0 /\
    valid (init T K spot vol r).
Proof.
  intros (HS & HK & HT & Hv) Hs i j Hi Hj spot vol.
  cbn [current_price strike time_to_maturity volatility init] in *.
  assert (HSab : S * 0.5 < S * 1.5) by (unfold_decimals; lra).
  assert (Hvab : py_max 0.01 (sigma * 0.5) < py_min 1.0 (sigma * 1.5))
    by (unfold py_max, py_min; destruct (Rlt_dec 0.01 (sigma * 0.5));
        destruct (Rlt_dec (sigma * 1.5) 1.0); unfold_decimals; lra).
  assert (Hsp : S * 0.5 <= spot <= S * 1.5)
    by (apply linspace_between; [lia | exact Hj | lra]).
  assert (Hvr : py_max 0.01 (sigma * 0.5) <= vol <= py_min 1.0 (sigma * 1.5))
    by (apply linspace_between; [lia | exact Hi | lra]).
  assert (Hlo : 0.01 <= py_max 0.01 (sigma * 0.5))
    by (unfold py_max; destruct (Rlt_dec 0.01 (sigma * 0.5)); lra).
  assert (Hhi : py_min 1.0 (sigma * 1.5) <= 1.0)
    by (unfold py_min; destruct (Rlt_dec (sigma * 1.5) 1.0); lra).
  split; [exact Hsp |]. split; [lra |].
  unfold valid. cbn [current_price strike time_to_maturity volatility init].
  unfold_decimals. lra.
Qed.

Lemma grid_cells_in_range_witness :
  (valid reference /\ 1 / 150 < 0.2 < 2) /\
  forall i j, (i < 50)%nat -> (j < 50)%nat ->
    let spot := nth j (spot_range 100) 0 in
    let vol := nth i (vol_range 0.2) 0 in
    100 * 0.5 <= spot <= 100 * 1.5 /\ 0.01 <= vol <= 1.0 /\
    valid (init 1 100 spot vol 0.05).
Proof.
  assert (H : valid reference) by (unfold valid, reference, init; simpl; unfold_decimals; lra).
  assert (H2 : 1 / 150 < 0.2 < 2) by (unfold_decimals; lra).
  split; [split; assumption | exact (grid_cells_in_range 1 100 100 0.2 0.05 H H2)].
Defined.

(** X6: prices are homogeneous in (spot, strike): scaling [current_price] and
    [strike] by the same non-zero factor [c] scales both prices by [c] and leaves
    both deltas unchanged. *)
Theorem run_scale_spot_strike (T K S sigma r c : R) :
  K <> 0 -> c <> 0 ->
  exists o1 o2, run (init T K S sigma r) = Ok o1 /\
    run (init T (c * K) (c * S) sigma r) = Ok o2 /\
    call_price o2 = option_map (Rmult c) (call_price o1) /\
    put_price o2 = option_map (Rmult c) (put_price o1) /\
    call_delta o2 = call_delta o1 /\ put_delta o2 = put_delta o1.
Proof.
  intros HK Hc.
  assert (HcK : c * K <> 0) by (apply Rmult_integral_contrapositive; split; assumption).
  assert (Hd1 : spec_d1 (init T (c * K) (c * S) sigma r) = spec_d1 (init T K S sigma r)).
  { unfold spec_d1. cbn [current_price strike time_to_maturity volatility interest_rate init].
    replace (c * S / (c * K)) with (S / K) by (field; split; assumption). reflexivity. }
  assert (Hd2 : spec_d2 (init T (c * K) (c * S) sigma r) = spec_d2 (init T K S sigma r))
    by (unfold spec_d2; rewrite Hd1; reflexivity).
  do 2 eexists. split; [apply run_ok; exact HK |]. split; [apply run_ok; exact HcK |].
  cbn [call_price put_price call_delta put_delta option_map].
  rewrite Hd1, Hd2.
  cbn [current_price strike time_to_maturity volatility interest_rate init].
  repeat split; f_equal; ring.
Qed.

Lemma run_scale_spot_strike_witness :
  (100 <> 0 /\ 2 <> 0) /\
  exists o1 o2, run (init 1 100 100 0.2 0.05) = Ok o1 /\
    run (init 1 (2 * 100) (2 * 100) 0.2 0.05) = Ok o2 /\
    call_price o2 = option_map (Rmult 2) (call_price o1) /\
    put_price o2 = option_map (Rmult 2) (put_price o1) /\
    call_delta o2 = call_delta o1 /\ put_delta o2 = put_delta o1.
Proof.
  assert (H1 : 100 <> 0) by (let H := fresh in intro H; lra).
  assert (H2 : 2 <> 0) by (let H := fresh in intro H; lra).
  split; [split; assumption | exact (run_scale_spot_strike 1 100 100 0.2 0.05 2 H1 H2)].
Defined.

(** X7: for valid inputs the assigned [put_delta] is [norm.cdf(-d1)], and the
    two deltas add up to 1. *)
Theorem put_delta_cdf_opp (o : BlackScholes) :
  valid o ->
  exists o' cd pd, run o = Ok o' /\ call_delta o' = Some cd /\ put_delta o' = Some pd /\
    pd = Norm.cdf (- spec_d1 o) /\ cd + pd = 1.
Proof.
  intros (HS & HK & HT & Hv). do 3 eexists. split; [apply run_ok; lra |].
  cbn [call_delta put_delta]. split; [reflexivity |]. split; [reflexivity |].
  rewrite Norm.cdf_opp. split; ring.
Qed.

Lemma put_delta_cdf_opp_witness :
  valid reference /\
  exists o' cd pd, run reference = Ok o' /\ call_delta o' = Some cd /\
    put_delta o' = Some pd /\ pd = Norm.cdf (- spec_d1 reference) /\ cd + pd = 1.
Proof.
  assert (H : valid reference) by (unfold valid, reference, init; simpl; unfold_decimals; lra).
  split; [exact H | exact (put_delta_cdf_opp reference H)].
Defined.
